(** * snet-daemon: the configuration check and the income validator

    A shallow embedding of two packages of the daemon:

    - [config]: the process-wide settings ([vip]) and [config.Validate],
      the sanity check of the daemon type and of the SSL settings;
    - [escrow]: [IncomeData], the [IncomeValidator] interface and its only
      implementation [incomeValidator], whose [Validate] is the payment
      check run before a call is served.

    Go pointers that may be nil are [option]s, [*big.Int] is [Z], a Go
    [error] is the [option] of its message, and the global [vip] is passed
    explicitly. *)

From Stdlib Require Import ZArith Ascii String List Lia Sorted.
From stdpp Require Import base option strings gmap list sorting.

Local Open Scope string_scope.
Local Open Scope Z_scope.

(* ===================================================================== *)
(** ** Package config *)
(* ===================================================================== *)

Module config.

(** The keys read by [Validate] (the const block of the package). *)
Definition DaemonTypeKey : string := "daemon_type".
Definition SSLCertPathKey : string := "ssl_cert".
Definition SSLKeyPathKey : string := "ssl_key".

(** [viper.Viper], as far as [GetString] is concerned: the merged
    settings (overrides, environment, configuration file, defaults), each
    value already cast to a string.  A key that is not set reads as the
    empty string, as [viper.GetString] does. *)
Record Viper : Type := mkViper { settings : gmap string string }.

Definition GetString (vip : Viper) (key : string) : string :=
  default "" (settings vip !! key).

(** [vip.Set(key, value)] for a key written like the constants of the
    package, in lower case and without a dot: the value overrides whatever
    the key had.  (On other keys viper first lower-cases the key and
    descends into nested maps at each dot.) *)
Definition Set_ (vip : Viper) (key value : string) : Viper :=
  mkViper (<[key := value]> (settings vip)).

(** The three string settings of [defaultConfigJson] that [Validate]
    reads. *)
Definition defaults : Viper :=
  mkViper (<[DaemonTypeKey := "grpc"]>
           (<[SSLCertPathKey := ""]>
            (<[SSLKeyPathKey := ""]> ∅))).

(** A Go [error], by its message; [None] is the nil error. *)
Definition error : Type := option string.

Definition unrecognized (dType : string) : string :=
  "unrecognized DAEMON_TYPE '" +:+ dType +:+ "'".

Definition ssl_incomplete : string :=
  "SSL requires both key and certificate when enabled".

(** [func Validate() error]: the switch on the daemon type, whose two
    cases are empty and whose default returns, then the SSL check. *)
Definition Validate (vip : Viper) : error :=
  let dType := GetString vip DaemonTypeKey in
  let switch : error :=
    if String.eqb dType "grpc" then None
    else if String.eqb dType "http" then None
    else Some (unrecognized dType) in
  match switch with
  | Some err => Some err
  | None =>
      let certPath := GetString vip SSLCertPathKey in
      let keyPath := GetString vip SSLKeyPathKey in
      if (negb (String.eqb certPath "") && String.eqb keyPath "")
         || (String.eqb certPath "" && negb (String.eqb keyPath ""))
      then Some ssl_incomplete
      else None
  end.

(** What the claim calls a recognised daemon type and a consistent SSL
    setting. *)
Definition known_daemon_type (vip : Viper) : Prop :=
  GetString vip DaemonTypeKey = "grpc" ∨ GetString vip DaemonTypeKey = "http".

Definition exactly_one_ssl_path (vip : Viper) : Prop :=
  (GetString vip SSLCertPathKey ≠ "" ∧ GetString vip SSLKeyPathKey = "") ∨
  (GetString vip SSLCertPathKey = "" ∧ GetString vip SSLKeyPathKey ≠ "").

Definition ssl_paths_agree (vip : Viper) : Prop :=
  (GetString vip SSLCertPathKey = "" ∧ GetString vip SSLKeyPathKey = "") ∨
  (GetString vip SSLCertPathKey ≠ "" ∧ GetString vip SSLKeyPathKey ≠ "").

(** *** Logging the configuration *)

Definition PrivateKeyKey : string := "private_key".
Definition HdwalletMnemonicKey : string := "hdwallet_mnemonic".

(** [vip.Get(key)] for a key as [vip.AllKeys()] lists it, the lower-case
    path of a leaf: its value, nil if there is none. *)
Definition Get (vip : Viper) (key : string) : option string :=
  settings vip !! key.

(** [sort.Strings]: increasing order, strings compared byte by byte. *)
Definition sort_Strings (keys : list string) : list string :=
  merge_sort String.le keys.

(** What the verb [%v] prints for the value of a key. *)
Definition show (value : option string) : string := default "<nil>" value.

Section Logging.

(** [strings.ToUpper] of the Go library. *)
Variable ToUpper : string → string.

(** [var hiddenKeys = map[string]bool{...}] *)
Definition hiddenKeys : gmap string bool :=
  <[ToUpper HdwalletMnemonicKey := true]> (<[ToUpper PrivateKeyKey := true]> ∅).

(** [hiddenKeys[strings.ToUpper(key)]], false for a key the map lacks. *)
Definition hidden (key : string) : bool :=
  default false (hiddenKeys !! ToUpper key).

(** The body of the loop of [LogConfig]: the line logged for [key]. *)
Definition logLine (vip : Viper) (key : string) : string :=
  if hidden key then key +:+ ": ***"
  else key +:+ ": " +:+ show (Get vip key).

(** [func LogConfig()], from the point where [vip.AllKeys()] has answered
    [keys] (in whatever order the map gave them): the lines handed to the
    logger, in order. *)
Definition LogKeys (vip : Viper) (keys : list string) : list string :=
  "Final configuration:" :: (logLine vip <$> sort_Strings keys).

End Logging.

(** [strings.ToUpper] as it acts on ASCII text, to run the log on ASCII
    keys: the letters a to z move to A to Z, every other byte stays. *)
Definition upper_ascii (c : ascii) : ascii :=
  let n := nat_of_ascii c in
  if ((97 <=? n) && (n <=? 122))%nat then ascii_of_nat (n - 32) else c.

Fixpoint ToUpperASCII (s : string) : string :=
  match s with
  | EmptyString => EmptyString
  | String c s' => String (upper_ascii c) (ToUpperASCII s')
  end.

(** A key written like the constants of the package: lower-case letters,
    digits and underscores only. *)
Definition plain_char (c : ascii) : bool :=
  let n := nat_of_ascii c in
  (((97 <=? n) && (n <=? 122)) || ((48 <=? n) && (n <=? 57)) || (n =? 95))%nat.

Fixpoint plain_key (key : string) : bool :=
  match key with
  | EmptyString => true
  | String c key' => plain_char c && plain_key key'
  end.

End config.

(* ===================================================================== *)
(** ** Package escrow *)
(* ===================================================================== *)

Module escrow.

(** *** gRPC statuses

    [codes.Code] and [status.Status] of google.golang.org/grpc.  A
    [*status.Status] is an [option Status]; nil means success. *)

Inductive Code : Type :=
| OK | Canceled | Unknown | InvalidArgument | DeadlineExceeded | NotFound
| AlreadyExists | PermissionDenied | ResourceExhausted | FailedPrecondition
| Aborted | OutOfRange | Unimplemented | Internal | Unavailable | DataLoss
| Unauthenticated.

#[global] Instance Code_eq_dec : EqDecision Code.
Proof. solve_decision. Defined.

Record Status : Type := mkStatus { status_code : Code; status_message : string }.

(** The error kind of an outcome, [None] for an accepted call. *)
Definition kind (err : option Status) : option Code := status_code <$> err.

(** *** Call data *)

(** Modelled from the spec: [handler.GrpcStreamContext], whose declaration
    is in package handler.  The call metadata of the data model: method
    name, optional invoice id, channel id, and the nonce and the previous
    authorized amount as claimed by the caller. *)
Record GrpcStreamContext : Type := mkGrpcStreamContext {
  MethodName : option string;
  InvoiceId : option string;
  ChannelId : option Z;
  Nonce : Z;
  PreviousAuthorizedAmount : Z
}.

(** [type IncomeData struct]: [Income *big.Int] and
    [GrpcContext *handler.GrpcStreamContext], both possibly nil. *)
Record IncomeData : Type := mkIncomeData {
  Income : option Z;
  GrpcContext : option GrpcStreamContext
}.

(** *** The collaborators of the spec *)

(** Modelled from the spec: the PaymentChannel record of the data model
    (the identifier is the key of the store; sender and recipient are left
    out, no operation here reads them). *)
Record PaymentChannel : Type := mkPaymentChannel {
  FullAmount : Z;
  AuthorizedAmount : Z;
  ChannelNonce : Z;
  Expiration : Z
}.

#[global] Instance PaymentChannel_eq_dec : EqDecision PaymentChannel.
Proof. solve_decision. Defined.

(** The Channel State Store, channel id to channel. *)
Abbreviation Store := (gmap Z PaymentChannel).

(** Modelled from the spec: the Pricing Policy,
    [price(methodName, invoiceMetadata) -> requiredPrice]. *)
Definition PricingPolicy : Type := option string → option string → Z.

Definition requiredPrice (price : PricingPolicy) (ctx : GrpcStreamContext) : Z :=
  price (MethodName ctx) (InvoiceId ctx).

(** Modelled from the spec: the Channel State Store contract,
    [get(channelId)] and
    [compareAndAdvance(channelId, expectedAuthorizedAmount, expectedNonce,
    delta)], the latter answering success ([true]) or conflict. *)
Inductive StoreCall : Type → Type :=
| Get (channelId : Z) : StoreCall (option PaymentChannel)
| CompareAndAdvance (channelId expectedAuthorizedAmount expectedNonce delta : Z)
  : StoreCall bool.

(** A computation that may call the store: what a method body does, as a
    tree of store calls ending in its return value. *)
Inductive Prog (A : Type) : Type :=
| Ret (a : A)
| Call {X : Type} (c : StoreCall X) (k : X → Prog A).
Arguments Ret {A} a.
Arguments Call {A X} c k.

Fixpoint bind {A B : Type} (f : A → Prog B) (p : Prog A) : Prog B :=
  match p with
  | Ret a => f a
  | Call c k => Call c (λ x, bind f (k x))
  end.

#[global] Instance Prog_ret : MRet Prog := @Ret.
#[global] Instance Prog_bind : MBind Prog := @bind.

(** How a store answers a call and what it becomes. *)
Definition Handler : Type := ∀ X, StoreCall X → Store → Store * X.

Definition advance (ch : PaymentChannel) (delta : Z) : PaymentChannel :=
  {| FullAmount := FullAmount ch;
     AuthorizedAmount := AuthorizedAmount ch + delta;
     ChannelNonce := ChannelNonce ch + 1;
     Expiration := Expiration ch |}.

(** Modelled from the spec: the store's atomic compare-and-update.  The
    channel advances when the expected authorized amount and nonce are the
    stored ones; anything else is a conflict and changes nothing. *)
Definition atomic_store : Handler := λ X c,
  match c in StoreCall X return Store → Store * X with
  | Get channelId => λ s, (s, s !! channelId)
  | CompareAndAdvance channelId expectedAuthorizedAmount expectedNonce delta => λ s,
      match s !! channelId with
      | Some ch =>
          if bool_decide (AuthorizedAmount ch = expectedAuthorizedAmount
                          ∧ ChannelNonce ch = expectedNonce)
          then (<[channelId := advance ch delta]> s, true)
          else (s, false)
      | None => (s, false)
      end
  end.

(** What a run leaves behind. *)
Inductive Event : Type :=
| GetEvent (channelId : Z)
| CompareAndAdvanceEvent (channelId expectedAuthorizedAmount expectedNonce delta : Z)
    (success : bool).

Definition event_of {X : Type} (c : StoreCall X) : X → Event :=
  match c in StoreCall X return X → Event with
  | Get channelId => λ _, GetEvent channelId
  | CompareAndAdvance channelId a n d => λ ok, CompareAndAdvanceEvent channelId a n d ok
  end.

Record Run (A : Type) : Type := mkRun {
  final : Store;
  trace : list Event;
  result : A
}.
Arguments mkRun {A} final trace result.
Arguments final {A} r.
Arguments trace {A} r.
Arguments result {A} r.

Fixpoint exec {A : Type} (store : Handler) (p : Prog A) (s : Store) : Run A :=
  match p with
  | Ret a => mkRun s [] a
  | Call c k =>
      let '(s', x) := store _ c s in
      let r := exec store (k x) s' in
      mkRun (final r) (event_of c x :: trace r) (result r)
  end.

Definition is_update (e : Event) : bool :=
  match e with CompareAndAdvanceEvent _ _ _ _ _ => true | GetEvent _ => false end.

(** The conditional updates a run has issued. *)
Definition updates (tr : list Event) : list Event := filter is_update tr.



(** The value a call has returned, if it has. *)
Definition outcome {A : Type} (p : Prog A) : option A :=
  match p with Ret a => Some a | Call _ _ => None end.

(** The store after each of a sequence of operations. *)
Fixpoint history {A : Type} (store : Handler) (ops : list (Prog A)) (s : Store)
  : list Store :=
  match ops with
  | [] => []
  | p :: ops' =>
      let s' := final (exec store p s) in
      s' :: history store ops' s'
  end.

(** A client of the store that reads a channel and advances it by
    [delta]: it shows the store at work. *)
Definition read_and_advance (channelId delta : Z) : Prog bool :=
  ch ← Call (Get channelId) Ret;
  match ch with
  | Some ch => Call (CompareAndAdvance channelId (AuthorizedAmount ch)
                       (ChannelNonce ch) delta) Ret
  | None => Ret false
  end.

(** *** The validator *)

(** [type IncomeValidator interface]: [Validate] returns nil if validation
    is successful or the gRPC status to be sent to the client in case of
    validation error. *)
Class IncomeValidator (V : Type) : Type :=
  Validate : V → option IncomeData → Prog (option Status).

Section Validator.

(** [blockchain.Agent], [blockchain.Processor] and the accessor
    [processor.Agent()] are declared in package blockchain. *)
Context {Agent Processor : Type} (Processor_Agent : Processor → Agent).

(** [type incomeValidator struct { agent *blockchain.Agent }] *)
Record incomeValidator : Type := mkIncomeValidator { agent : Agent }.

(** The method [Validate] of [*incomeValidator]: the body is
    [// TODO: implement] and [return nil].  The [*IncomeData] argument
    has no name and is not read, the agent is not consulted, and no
    store is called. *)
Definition incomeValidator_Validate (validator : incomeValidator)
    (data : option IncomeData) : Prog (option Status) :=
  Ret None.

#[global] Instance incomeValidator_IncomeValidator
  : IncomeValidator incomeValidator := incomeValidator_Validate.

Definition NewIncomeValidator (processor : Processor) : incomeValidator :=
  {| agent := Processor_Agent processor |}.

End Validator.

(** *** What the claims speak of *)

Definition method_of (data : IncomeData) : option string :=
  ctx ← GrpcContext data; MethodName ctx.

Definition channel_id_of (data : IncomeData) : option Z :=
  ctx ← GrpcContext data; ChannelId ctx.

(** The call [data] carries [ctx] and [income] and names the stored
    channel [ch]. *)
Definition on_channel (s : Store) (data : IncomeData) (ctx : GrpcStreamContext)
    (income : Z) (ch : PaymentChannel) : Prop :=
  GrpcContext data = Some ctx ∧ Income data = Some income ∧
  ∃ channelId, ChannelId ctx = Some channelId ∧ s !! channelId = Some ch.

Definition claims_match (ctx : GrpcStreamContext) (ch : PaymentChannel) : Prop :=
  Nonce ctx = ChannelNonce ch ∧ PreviousAuthorizedAmount ctx = AuthorizedAmount ch.

Definition expired (now : Z) (ch : PaymentChannel) : Prop := Expiration ch < now.

(** The conditions under which the spec accepts a call. *)
Definition eligible (price : PricingPolicy) (now : Z) (ctx : GrpcStreamContext)
    (income : Z) (ch : PaymentChannel) : Prop :=
  requiredPrice price ctx ≤ income ∧
  requiredPrice price ctx ≤ FullAmount ch - AuthorizedAmount ch ∧
  claims_match ctx ch ∧ ¬ expired now ch.

(** Step 1 of the spec: negative income, no channel id, or no method
    name. *)
Definition malformed (data : IncomeData) : Prop :=
  (∃ income, Income data = Some income ∧ income < 0) ∨
  channel_id_of data = None ∨ method_of data = None.

(** Outcomes, as the spec words them. *)
Definition accepted_and_advanced (s : Store) (channelId income : Z)
    (r : Run (option Status)) : Prop :=
  result r = None ∧
  ∃ ch ch', s !! channelId = Some ch ∧ final r !! channelId = Some ch' ∧
    AuthorizedAmount ch' = AuthorizedAmount ch + income ∧
    ChannelNonce ch' = ChannelNonce ch + 1.

Definition rejected_unchanged (code : Code) (s : Store)
    (r : Run (option Status)) : Prop :=
  kind (result r) = Some code ∧ final r = s.

Definition within_deposit (ch : PaymentChannel) : Prop :=
  AuthorizedAmount ch ≤ FullAmount ch.

Definition store_ok (s : Store) : Prop :=
  map_Forall (λ _ ch, within_deposit ch) s.

Definition never_decreases (s s' : Store) : Prop :=
  ∀ channelId ch, s !! channelId = Some ch →
    ∃ ch', s' !! channelId = Some ch' ∧ AuthorizedAmount ch ≤ AuthorizedAmount ch'.




(** *** The scenarios of the spec *)

Definition validator0 : @incomeValidator unit := mkIncomeValidator tt.

(** price(method) = 10 *)
Definition price10 : PricingPolicy := λ _ _, 10.

Definition now0 : Z := 500.

Definition ctx_of (nonce previousAuthorized : Z) : GrpcStreamContext :=
  {| MethodName := Some "/example.Service/call";
     InvoiceId := None;
     ChannelId := Some 1;
     Nonce := nonce;
     PreviousAuthorizedAmount := previousAuthorized |}.

Definition call (income nonce previousAuthorized : Z) : IncomeData :=
  {| Income := Some income;
     GrpcContext := Some (ctx_of nonce previousAuthorized) |}.

Definition channel_of (authorized : Z) : PaymentChannel :=
  {| FullAmount := 100; AuthorizedAmount := authorized;
     ChannelNonce := 5; Expiration := 1000 |}.

(** channel [{fullAmount:100, authorizedAmount:a, nonce:5}], under id 1 *)
Definition store_of (authorized : Z) : Store := {[ 1 := channel_of authorized ]}.

End escrow.

(* ===================================================================== *)
(** ** Properties of package config *)
(* ===================================================================== *)

Module config_properties.
Import config.

(** *** Small runs *)

Example Validate_defaults : Validate defaults = None.
Proof. reflexivity. Qed.

Example Validate_http_with_ssl :
  Validate (Set_ (Set_ (Set_ defaults DaemonTypeKey "http")
                    SSLCertPathKey "cert.pem") SSLKeyPathKey "key.pem") = None.
Proof. reflexivity. Qed.

Example Validate_unknown_type :
  Validate (Set_ defaults DaemonTypeKey "rest")
  = Some "unrecognized DAEMON_TYPE 'rest'".
Proof. reflexivity. Qed.

Example Validate_cert_without_key :
  Validate (Set_ defaults SSLCertPathKey "cert.pem") = Some ssl_incomplete.
Proof. reflexivity. Qed.

Example Validate_key_without_cert :
  Validate (Set_ defaults SSLKeyPathKey "key.pem") = Some ssl_incomplete.
Proof. reflexivity. Qed.

(** The type is checked first: an unknown type hides an SSL problem. *)
Example Validate_type_checked_first :
  Validate (Set_ (Set_ defaults DaemonTypeKey "") SSLCertPathKey "cert.pem")
  = Some "unrecognized DAEMON_TYPE ''".
Proof. reflexivity. Qed.

(** *** The check, case by case *)

Lemma ssl_paths_agree_iff (vip : Viper) :
  ssl_paths_agree vip ↔ ¬ exactly_one_ssl_path vip.
Proof.
  unfold ssl_paths_agree, exactly_one_ssl_path.
  destruct (decide (GetString vip SSLCertPathKey = ""));
    destruct (decide (GetString vip SSLKeyPathKey = "")); tauto.
Qed.

Lemma Validate_unknown (vip : Viper) :
  ¬ known_daemon_type vip →
  Validate vip = Some (unrecognized (GetString vip DaemonTypeKey)).
Proof.
  intros Hty. unfold Validate, known_daemon_type in *.
  destruct (String.eqb_spec (GetString vip DaemonTypeKey) "grpc") as [E | _];
    [tauto |].
  destruct (String.eqb_spec (GetString vip DaemonTypeKey) "http") as [E | _];
    [tauto |].
  reflexivity.
Qed.

Lemma ssl_check_spec (certPath keyPath : string) :
  (negb (String.eqb certPath "") && String.eqb keyPath "")
  || (String.eqb certPath "" && negb (String.eqb keyPath "")) = true
  ↔ (certPath ≠ "" ∧ keyPath = "") ∨ (certPath = "" ∧ keyPath ≠ "").
Proof.
  destruct (String.eqb_spec certPath "") as [Ec | Ec];
    destruct (String.eqb_spec keyPath "") as [Ek | Ek]; simpl;
    split; (tauto || discriminate || (intros _; tauto)).
Qed.

Lemma Validate_known (vip : Viper) :
  known_daemon_type vip →
  Validate vip =
    if bool_decide (exactly_one_ssl_path vip) then Some ssl_incomplete else None.
Proof.
  intros Hty. unfold Validate, known_daemon_type in *. cbn zeta.
  assert (Hswitch : ∀ rest : error,
            match (if String.eqb (GetString vip DaemonTypeKey) "grpc" then None
                   else if String.eqb (GetString vip DaemonTypeKey) "http" then None
                   else Some (unrecognized (GetString vip DaemonTypeKey)))
            with Some err => Some err | None => rest end = rest).
  { intros rest.
    destruct (String.eqb_spec (GetString vip DaemonTypeKey) "grpc") as [_ | Eg];
      [reflexivity |].
    destruct (String.eqb_spec (GetString vip DaemonTypeKey) "http") as [_ | Eh];
      [reflexivity | tauto]. }
  rewrite Hswitch. clear Hswitch.
  pose proof (ssl_check_spec (GetString vip SSLCertPathKey)
                (GetString vip SSLKeyPathKey)) as Hssl.
  fold (exactly_one_ssl_path vip) in Hssl.
  case_bool_decide as Hone.
  - apply Hssl in Hone. rewrite Hone. reflexivity.
  - destruct (_ || _) eqn:Hb; [| reflexivity].
    exfalso. apply Hone, Hssl. reflexivity.
Qed.

(** C10: [config.Validate] returns an error exactly when the daemon type
    is neither "grpc" nor "http" or exactly one of the SSL certificate
    path and the SSL key path is non-empty; it returns nil exactly when
    the daemon type is one of the two and the two paths are both empty or
    both non-empty. *)
Theorem config_Validate_error_iff (vip : Viper) :
  (Validate vip ≠ None ↔
     (GetString vip DaemonTypeKey ≠ "grpc" ∧ GetString vip DaemonTypeKey ≠ "http")
     ∨ exactly_one_ssl_path vip)
  ∧ (Validate vip = None ↔ known_daemon_type vip ∧ ssl_paths_agree vip).
Proof.
  destruct (decide (known_daemon_type vip)) as [Hty | Hty].
  - rewrite (Validate_known vip Hty), ssl_paths_agree_iff.
    assert (Hno : ¬ (GetString vip DaemonTypeKey ≠ "grpc"
                     ∧ GetString vip DaemonTypeKey ≠ "http"))
      by (unfold known_daemon_type in Hty; tauto).
    case_bool_decide as Hssl.
    + split; split; [ tauto | discriminate | discriminate | tauto ].
    + split; split; [ congruence | tauto | tauto | reflexivity ].
  - rewrite (Validate_unknown vip Hty).
    assert (Hne : GetString vip DaemonTypeKey ≠ "grpc"
                  ∧ GetString vip DaemonTypeKey ≠ "http")
      by (unfold known_daemon_type in Hty; tauto).
    split; split; [ tauto | discriminate | discriminate | tauto ].
Qed.

(** *** More on the check *)

Lemma GetString_Set_eq (vip : Viper) (key value : string) :
  GetString (Set_ vip key value) key = value.
Proof. unfold GetString, Set_. simpl. rewrite lookup_insert_eq. reflexivity. Qed.

Lemma GetString_Set_ne (vip : Viper) (key key' value : string) :
  key ≠ key' → GetString (Set_ vip key value) key' = GetString vip key'.
Proof.
  intros Hne. unfold GetString, Set_. simpl.
  rewrite lookup_insert_ne by exact Hne. reflexivity.
Qed.

Lemma Validate_agree (vip vip' : Viper) :
  GetString vip DaemonTypeKey = GetString vip' DaemonTypeKey →
  GetString vip SSLCertPathKey = GetString vip' SSLCertPathKey →
  GetString vip SSLKeyPathKey = GetString vip' SSLKeyPathKey →
  Validate vip = Validate vip'.
Proof. intros Ht Hc Hk. unfold Validate. rewrite Ht, Hc, Hk. reflexivity. Qed.

Lemma unrecognized_not_ssl (dType : string) : unrecognized dType ≠ ssl_incomplete.
Proof. unfold unrecognized, ssl_incomplete. simpl. discriminate. Qed.

(** X1: of all the settings, [Validate] reads the daemon type and the two
    SSL paths only: setting any other key (written in lower case, without
    a dot) to any value leaves its answer as it was. *)
Theorem Validate_ignores_other_keys (vip : Viper) (key value : string) :
  plain_key key = true →
  key ≠ DaemonTypeKey → key ≠ SSLCertPathKey → key ≠ SSLKeyPathKey →
  Validate (Set_ vip key value) = Validate vip.
Proof.
  intros _ Ht Hc Hk. apply Validate_agree; apply GetString_Set_ne; assumption.
Qed.

Lemma Validate_ignores_other_keys_witness :
  plain_key "private_key" = true ∧
  Validate (Set_ (Set_ defaults SSLCertPathKey "cert.pem") "private_key" "secret")
  = Validate (Set_ defaults SSLCertPathKey "cert.pem").
Proof.
  split; [reflexivity |].
  apply (Validate_ignores_other_keys (Set_ defaults SSLCertPathKey "cert.pem")
           "private_key" "secret"); [reflexivity | discriminate ..].
Defined.

(** X3: the two errors tell the two failures apart, and the daemon type is
    judged first.  The error names the unrecognized type exactly when the
    type is neither "grpc" nor "http", SSL settings notwithstanding; it is
    the SSL message exactly when the type is recognized and exactly one of
    the two paths is set. *)
Theorem Validate_error_messages (vip : Viper) :
  (Validate vip = Some (unrecognized (GetString vip DaemonTypeKey))
   ↔ ¬ known_daemon_type vip)
  ∧ (Validate vip = Some ssl_incomplete
     ↔ known_daemon_type vip ∧ exactly_one_ssl_path vip).
Proof.
  destruct (decide (known_daemon_type vip)) as [Hty | Hty].
  - rewrite (Validate_known vip Hty).
    case_bool_decide as Hssl; split; split.
    + intros E. apply (inj Some) in E. symmetry in E.
      destruct (unrecognized_not_ssl _ E).
    + tauto.
    + tauto.
    + reflexivity.
    + discriminate.
    + tauto.
    + discriminate.
    + tauto.
  - rewrite (Validate_unknown vip Hty). split; split.
    + tauto.
    + reflexivity.
    + intros E. apply (inj Some) in E. destruct (unrecognized_not_ssl _ E).
    + tauto.
Qed.

(** X4: whatever the configuration was, once the daemon type is set to
    "grpc" or "http" and the SSL certificate and key paths are set together
    (both empty or both not), [Validate] returns nil. *)
Theorem Validate_after_Set (vip : Viper) (dType certPath keyPath : string) :
  dType = "grpc" ∨ dType = "http" →
  (certPath = "" ↔ keyPath = "") →
  Validate (Set_ (Set_ (Set_ vip DaemonTypeKey dType) SSLCertPathKey certPath)
              SSLKeyPathKey keyPath) = None.
Proof.
  intros Hty Hssl.
  set (vip' := Set_ (Set_ (Set_ vip DaemonTypeKey dType) SSLCertPathKey certPath)
                 SSLKeyPathKey keyPath).
  assert (Et : GetString vip' DaemonTypeKey = dType).
  { unfold vip'. rewrite !GetString_Set_ne by discriminate.
    apply GetString_Set_eq. }
  assert (Ec : GetString vip' SSLCertPathKey = certPath).
  { unfold vip'. rewrite GetString_Set_ne by discriminate.
    apply GetString_Set_eq. }
  assert (Ek : GetString vip' SSLKeyPathKey = keyPath).
  { unfold vip'. apply GetString_Set_eq. }
  rewrite Validate_known by (unfold known_daemon_type; rewrite Et; exact Hty).
  rewrite bool_decide_eq_false_2; [reflexivity |].
  unfold exactly_one_ssl_path. rewrite Ec, Ek. tauto.
Qed.

Lemma Validate_after_Set_witness :
  Validate (Set_ (Set_ (Set_ (Set_ defaults DaemonTypeKey "rest")
                          DaemonTypeKey "http") SSLCertPathKey "cert.pem")
              SSLKeyPathKey "key.pem") = None.
Proof.
  apply (Validate_after_Set (Set_ defaults DaemonTypeKey "rest")
           "http" "cert.pem" "key.pem").
  - right. reflexivity.
  - split; discriminate.
Defined.

(** *** The configuration log *)

Lemma sort_Strings_Sorted (keys : list string) :
  Sorted String.le (sort_Strings keys).
Proof. apply (Sorted_merge_sort String.le). Qed.

Lemma sort_Strings_Permutation (keys : list string) : sort_Strings keys ≡ₚ keys.
Proof. apply merge_sort_Permutation. Qed.

Lemma sort_Strings_proper (keys keys' : list string) :
  keys ≡ₚ keys' → sort_Strings keys = sort_Strings keys'.
Proof.
  intros Hperm. apply (Sorted_unique String.le); try apply sort_Strings_Sorted.
  rewrite !sort_Strings_Permutation. exact Hperm.
Qed.

Section Logging.

Variable ToUpper : string → string.

Lemma hidden_iff (key : string) :
  hidden ToUpper key = true
  ↔ ToUpper key = ToUpper PrivateKeyKey ∨ ToUpper key = ToUpper HdwalletMnemonicKey.
Proof.
  unfold hidden, hiddenKeys.
  destruct (decide (ToUpper HdwalletMnemonicKey = ToUpper key)) as [E | Hne].
  - rewrite E, lookup_insert_eq. simpl. split; [intros _; right | ]; done.
  - rewrite lookup_insert_ne by exact Hne.
    destruct (decide (ToUpper PrivateKeyKey = ToUpper key)) as [E | Hne'].
    + rewrite E, lookup_insert_eq. simpl. split; [intros _; left | ]; done.
    + rewrite lookup_insert_ne by exact Hne'. rewrite lookup_empty. simpl.
      split; [discriminate |]. intros [E | E]; congruence.
Qed.

Lemma logLine_hidden (vip : Viper) (key : string) :
  hidden ToUpper key = true → logLine ToUpper vip key = key +:+ ": ***".
Proof. intros Hh. unfold logLine. rewrite Hh. reflexivity. Qed.

Lemma logLine_shown (vip : Viper) (key value : string) :
  hidden ToUpper key = false → Get vip key = Some value →
  logLine ToUpper vip key = key +:+ ": " +:+ value.
Proof. intros Hh Hget. unfold logLine. rewrite Hh, Hget. reflexivity. Qed.

Lemma elem_of_LogKeys (vip : Viper) (keys : list string) (key : string) :
  key ∈ keys → logLine ToUpper vip key ∈ LogKeys ToUpper vip keys.
Proof.
  intros Hin. unfold LogKeys. apply list_elem_of_further.
  apply list_elem_of_fmap. exists key. split; [reflexivity |].
  rewrite sort_Strings_Permutation. exact Hin.
Qed.

(** Two configurations with the same values under the listed keys that
    are not hidden have the same log. *)
Lemma LogKeys_ext (vip vip' : Viper) (keys : list string) :
  (∀ key, key ∈ keys → hidden ToUpper key = false → Get vip key = Get vip' key) →
  LogKeys ToUpper vip keys = LogKeys ToUpper vip' keys.
Proof.
  intros Hvalues. unfold LogKeys. f_equal.
  apply list_fmap_ext. intros i key Hi. unfold logLine.
  destruct (hidden ToUpper key) eqn:Hh; [reflexivity |].
  rewrite (Hvalues key); [reflexivity | | exact Hh].
  rewrite <- (sort_Strings_Permutation keys).
  apply list_elem_of_lookup. exists i. exact Hi.
Qed.

(** X5: whatever keys [AllKeys] lists, in whatever order, the log starts
    with the line "Final configuration:" and goes on with the lines of the
    listed keys in increasing order, one line for each listed key. *)
Theorem LogKeys_one_line_per_key_sorted (vip : Viper) (keys : list string) :
  ∃ sorted : list string,
    LogKeys ToUpper vip keys
    = "Final configuration:" :: (logLine ToUpper vip <$> sorted)
    ∧ Sorted String.le sorted ∧ sorted ≡ₚ keys
    ∧ length (LogKeys ToUpper vip keys) = S (length keys).
Proof.
  exists (sort_Strings keys).
  split; [reflexivity |].
  split; [apply sort_Strings_Sorted |].
  split; [apply sort_Strings_Permutation |].
  unfold LogKeys. cbn [length]. f_equal.
  rewrite length_fmap, sort_Strings_Permutation. reflexivity.
Qed.

(** X6: the value of a hidden key never reaches the log.  For a listed key
    whose upper-case form is that of "private_key" or of
    "hdwallet_mnemonic", the line logged is the key followed by ": ***",
    and two configurations that differ in the value of that key only have
    the same log. *)
Theorem LogKeys_hides_value (vip vip' : Viper) (keys : list string) (key : string) :
  ToUpper key = ToUpper PrivateKeyKey ∨ ToUpper key = ToUpper HdwalletMnemonicKey →
  key ∈ keys →
  (∀ key', key' ∈ keys → key' ≠ key → Get vip key' = Get vip' key') →
  (key +:+ ": ***") ∈ LogKeys ToUpper vip keys
  ∧ LogKeys ToUpper vip keys = LogKeys ToUpper vip' keys.
Proof.
  intros Hh Hin Hothers. apply hidden_iff in Hh. split.
  - rewrite <- (logLine_hidden vip key Hh). apply elem_of_LogKeys. exact Hin.
  - apply LogKeys_ext. intros key' Hin' Hshown. apply Hothers; [exact Hin' |].
    intros ->. congruence.
Qed.

(** X7: every other listed key is logged with its value: for a listed key
    that is not hidden and whose value is [value], the log has the line
    "key: value". *)
Theorem LogKeys_shows_value (vip : Viper) (keys : list string) (key value : string) :
  key ∈ keys →
  hidden ToUpper key = false →
  Get vip key = Some value →
  (key +:+ ": " +:+ value) ∈ LogKeys ToUpper vip keys.
Proof.
  intros Hin Hshown Hget.
  rewrite <- (logLine_shown vip key value Hshown Hget).
  apply elem_of_LogKeys. exact Hin.
Qed.

(** X8: the log does not depend on the order in which [AllKeys] lists the
    keys: two listings of the same keys give the same lines in the same
    order. *)
Theorem LogKeys_order_irrelevant (vip : Viper) (keys keys' : list string) :
  keys ≡ₚ keys' → LogKeys ToUpper vip keys = LogKeys ToUpper vip keys'.
Proof.
  intros Hperm. unfold LogKeys.
  rewrite (sort_Strings_proper keys keys' Hperm). reflexivity.
Qed.

End Logging.

(** The log of a configuration with a private key. *)
Example LogKeys_run :
  LogKeys ToUpperASCII (Set_ defaults PrivateKeyKey "0xc0ffee")
    ["ssl_key"; "private_key"; "daemon_type"; "ssl_cert"]
  = ["Final configuration:"; "daemon_type: grpc"; "private_key: ***";
     "ssl_cert: "; "ssl_key: "].
Proof. vm_compute. reflexivity. Qed.

Lemma LogKeys_hides_value_witness :
  let keys := ["ssl_key"; "hdwallet_mnemonic"; "daemon_type"; "ssl_cert"] in
  let vip := Set_ defaults HdwalletMnemonicKey "abandon ability" in
  let vip' := Set_ defaults HdwalletMnemonicKey "zoo zone" in
  (HdwalletMnemonicKey +:+ ": ***") ∈ LogKeys ToUpperASCII vip keys
  ∧ LogKeys ToUpperASCII vip keys = LogKeys ToUpperASCII vip' keys.
Proof.
  apply (LogKeys_hides_value ToUpperASCII
           (Set_ defaults HdwalletMnemonicKey "abandon ability")
           (Set_ defaults HdwalletMnemonicKey "zoo zone")
           ["ssl_key"; "hdwallet_mnemonic"; "daemon_type"; "ssl_cert"]
           HdwalletMnemonicKey).
  - right. reflexivity.
  - apply list_elem_of_further, list_elem_of_here.
  - intros key' _ Hne. unfold Get, Set_. cbn [settings].
    rewrite !lookup_insert_ne by (intros E; apply Hne; symmetry; exact E).
    reflexivity.
Defined.

Lemma LogKeys_shows_value_witness :
  ("daemon_type" +:+ ": " +:+ "grpc")
    ∈ LogKeys ToUpperASCII (Set_ defaults PrivateKeyKey "0xc0ffee")
        ["ssl_key"; "private_key"; "daemon_type"; "ssl_cert"].
Proof.
  apply (LogKeys_shows_value ToUpperASCII
           (Set_ defaults PrivateKeyKey "0xc0ffee")
           ["ssl_key"; "private_key"; "daemon_type"; "ssl_cert"]
           "daemon_type" "grpc").
  - do 2 apply list_elem_of_further. apply list_elem_of_here.
  - reflexivity.
  - reflexivity.
Defined.

Lemma LogKeys_order_irrelevant_witness :
  LogKeys ToUpperASCII defaults ["ssl_key"; "daemon_type"; "ssl_cert"]
  = LogKeys ToUpperASCII defaults ["daemon_type"; "ssl_cert"; "ssl_key"].
Proof.
  apply (LogKeys_order_irrelevant ToUpperASCII defaults
           ["ssl_key"; "daemon_type"; "ssl_cert"]
           ["daemon_type"; "ssl_cert"; "ssl_key"]).
  exact (perm_trans (perm_swap "daemon_type" "ssl_key" ["ssl_cert"])
           (perm_skip "daemon_type" (perm_swap "ssl_cert" "ssl_key" []))).
Defined.

End config_properties.

(* ===================================================================== *)
(** ** Properties of package escrow *)
(* ===================================================================== *)

Module escrow_properties.
Import escrow.

(** *** The store at work *)

Example atomic_store_advances :
  exec atomic_store (read_and_advance 1 10) (store_of 20)
  = mkRun {[ 1 := mkPaymentChannel 100 30 6 1000 ]}
          [GetEvent 1; CompareAndAdvanceEvent 1 20 5 10 true] true.
Proof. reflexivity. Qed.

Example atomic_store_refuses_stale :
  exec atomic_store (Call (CompareAndAdvance 1 20 4 10) Ret) (store_of 20)
  = mkRun (store_of 20) [CompareAndAdvanceEvent 1 20 4 10 false] false.
Proof. reflexivity. Qed.

(** *** Runs of [Validate] *)

Section Properties.

Context {Agent : Type}.
Implicit Types (validator : @incomeValidator Agent) (data : option IncomeData).
Implicit Types (store : Handler) (s : Store).

Lemma Validate_unfold validator data : Validate validator data = Ret None.
Proof. reflexivity. Qed.

(** The validator handed out by [NewIncomeValidator] is this one. *)
Lemma NewIncomeValidator_Validate {Processor : Type}
    (Processor_Agent : Processor → Agent) (processor : Processor) data :
  Validate (NewIncomeValidator Processor_Agent processor) data = Ret None.
Proof. reflexivity. Qed.

Lemma exec_Validate store validator data s :
  exec store (Validate validator data) s = mkRun s [] None.
Proof. reflexivity. Qed.


Lemma history_Validate store validator (calls : list (option IncomeData)) s :
  history store (Validate validator <$> calls) s = replicate (length calls) s.
Proof.
  induction calls as [| data calls IH].
  - reflexivity.
  - rewrite fmap_cons. cbn [history].
    rewrite exec_Validate. cbn [final length replicate].
    rewrite IH. reflexivity.
Qed.




(** C2: for every input (any income, negative or nil, metadata or none, a
    nil [*IncomeData]) [Validate] returns nil: every call is reported as
    validated and none is rejected with an error status, whatever the store
    holds or would answer. *)
Theorem Validate_always_nil validator data store s :
  Validate validator data = Ret None
  ∧ result (exec store (Validate validator data) s) = None
  ∧ kind (result (exec store (Validate validator data) s)) = None.
Proof. repeat split. Qed.

(** C1, as the code has it: for every call whose income is at least the
    required price, on a channel with at least that much capacity left, with
    matching nonce and previous amount and unexpired, [Validate] returns nil
    (Accepted); it only checks, the stored channel (authorized amount and
    nonce) is what it was. *)
Theorem Validate_eligible_accepted_store_kept (price : PricingPolicy) (now : Z)
    store validator s (d : IncomeData) ctx income ch :
  on_channel s d ctx income ch →
  eligible price now ctx income ch →
  let r := exec store (Validate validator (Some d)) s in
  result r = None ∧ final r = s.
Proof. intros _ _. rewrite exec_Validate. split; reflexivity. Qed.


(** C6, as the code has it: for every call that passes the earlier checks
    and whose income would take the authorized amount over the deposit, or
    whose channel has expired, [Validate] returns nil (no
    ResourceExhausted) and the stored state is unchanged. *)
Theorem Validate_over_deposit_accepted_store_kept (price : PricingPolicy)
    (now : Z) store validator s (d : IncomeData) ctx income ch :
  on_channel s d ctx income ch →
  requiredPrice price ctx ≤ income →
  claims_match ctx ch →
  FullAmount ch < AuthorizedAmount ch + income ∨ expired now ch →
  let r := exec store (Validate validator (Some d)) s in
  result r = None ∧ final r = s.
Proof. intros _ _ _ _. rewrite exec_Validate. split; reflexivity. Qed.

(** [Validate] issues no compare-and-update and no other call to the
    store, whatever the store would answer: the trace of every run is
    empty, the result is nil and the store is as it was.  No run has a
    failed conditional update of its own. *)
Lemma Validate_calls_no_store store validator data s :
  let r := exec store (Validate validator data) s in
  trace r = [] ∧ length (updates (trace r)) = 0%nat ∧
  result r = None ∧ kind (result r) ≠ Some Aborted ∧ final r = s.
Proof. rewrite exec_Validate. repeat split. discriminate. Qed.

Lemma never_decreases_refl s : never_decreases s s.
Proof. intros channelId ch Hch. exists ch. split; [exact Hch | lia]. Qed.

Lemma Sorted_replicate (n : nat) s : Sorted never_decreases (replicate n s).
Proof.
  induction n as [| n IH]; simpl; constructor.
  - exact IH.
  - destruct n; simpl; constructor. apply never_decreases_refl.
Qed.

(** C8: for every sequence of [Validate] operations on a store in which
    every channel has [authorizedAmount ≤ fullAmount], the same holds of
    every channel after each operation, and from each state to the next no
    stored authorized amount decreases. *)
Theorem Validate_keeps_invariant store validator
    (calls : list (option IncomeData)) s :
  store_ok s →
  let h := history store (Validate validator <$> calls) s in
  Forall store_ok h ∧ Sorted never_decreases (s :: h).
Proof.
  intros Hok. cbn zeta. rewrite history_Validate. split.
  - apply Forall_replicate. exact Hok.
  - exact (Sorted_replicate (S (length calls)) s).
Qed.


End Properties.

(** *** The scenarios, run *)

Lemma scenario_on_channel (income nonce previousAuthorized authorized : Z) :
  on_channel (store_of authorized) (call income nonce previousAuthorized)
    (ctx_of nonce previousAuthorized) income (channel_of authorized).
Proof.
  split; [reflexivity |]. split; [reflexivity |].
  exists 1. split; [reflexivity |]. apply lookup_singleton_eq.
Defined.

Lemma scenario_store_ok (authorized : Z) :
  authorized ≤ 100 → store_ok (store_of authorized).
Proof.
  intros Hle. apply map_Forall_singleton. exact Hle.
Defined.

(** The accepted scenario: channel [{100, 20, nonce 5}], price 10, income
    10, claimed previous amount 20 and nonce 5; the same against a channel
    with 10 left. *)
Lemma scenario_eligible (authorized : Z) :
  authorized ≤ 90 →
  eligible price10 now0 (ctx_of 5 authorized) 10 (channel_of authorized).
Proof.
  intros Hle.
  unfold eligible, claims_match, expired, requiredPrice, price10, now0.
  simpl. lia.
Defined.

Lemma negative_income_malformed : malformed (call (-3) 5 20).
Proof. left. exists (-3). split; [reflexivity | lia]. Defined.


Lemma Validate_eligible_accepted_store_kept_witness :
  on_channel (store_of 20) (call 10 5 20) (ctx_of 5 20) 10 (channel_of 20) ∧
  eligible price10 now0 (ctx_of 5 20) 10 (channel_of 20) ∧
  let r := exec atomic_store (Validate validator0 (Some (call 10 5 20))) (store_of 20) in
  result r = None ∧ final r = store_of 20.
Proof.
  assert (He : eligible price10 now0 (ctx_of 5 20) 10 (channel_of 20))
    by (apply scenario_eligible; lia).
  split; [exact (scenario_on_channel 10 5 20 20) |].
  split; [exact He |].
  exact (Validate_eligible_accepted_store_kept price10 now0 atomic_store
           validator0 (store_of 20) (call 10 5 20) (ctx_of 5 20) 10 (channel_of 20)
           (scenario_on_channel 10 5 20 20) He).
Defined.

(** C1 fails as stated: in the scenario of the spec the call is accepted
    but the stored channel is still [{authorizedAmount:20, nonce:5}], not
    [{authorizedAmount:30, nonce:6}]. *)
Lemma Validate_does_not_advance :
  let r := exec atomic_store (Validate validator0 (Some (call 10 5 20))) (store_of 20) in
  on_channel (store_of 20) (call 10 5 20) (ctx_of 5 20) 10 (channel_of 20) ∧
  eligible price10 now0 (ctx_of 5 20) 10 (channel_of 20) ∧
  final r !! 1 = Some (mkPaymentChannel 100 20 5 1000) ∧
  ¬ accepted_and_advanced (store_of 20) 1 10 r.
Proof.
  cbn zeta. split; [apply scenario_on_channel |].
  split; [apply scenario_eligible; lia |].
  split; [reflexivity |].
  intros (_ & ch & ch' & Hs & Hf & Hamount & _).
  rewrite exec_Validate in Hf. cbn [final] in Hf.
  rewrite Hs in Hf. injection Hf as <-. lia.
Qed.

(** C3: at the scenario of the spec with income 5, below the price 10,
    [Validate] returns nil where the claim has PermissionDenied; the store
    is unchanged. *)
Theorem Validate_underpaid_is_accepted :
  let r := exec atomic_store (Validate validator0 (Some (call 5 5 20))) (store_of 20) in
  5 < requiredPrice price10 (ctx_of 5 20) ∧
  result r = None ∧
  ¬ rejected_unchanged PermissionDenied (store_of 20) r ∧
  final r = store_of 20.
Proof.
  cbn zeta. split; [reflexivity |]. split; [reflexivity |].
  split; [| reflexivity]. intros [Hkind _]. discriminate Hkind.
Qed.

(** C4: at the scenario of the spec with income -3, a negative income and
    so below the price 10, [Validate] returns nil where the claim has
    InvalidArgument. *)
Theorem Validate_negative_income_is_accepted :
  let r := exec atomic_store (Validate validator0 (Some (call (-3) 5 20)))
             (store_of 20) in
  malformed (call (-3) 5 20) ∧
  -3 < requiredPrice price10 (ctx_of 5 20) ∧
  result r = None ∧
  kind (result r) ≠ Some InvalidArgument.
Proof.
  cbn zeta. split; [exact negative_income_malformed |].
  split; [reflexivity |]. split; [reflexivity |]. discriminate.
Qed.



Lemma Validate_over_deposit_accepted_store_kept_witness :
  on_channel (store_of 95) (call 10 5 95) (ctx_of 5 95) 10 (channel_of 95) ∧
  requiredPrice price10 (ctx_of 5 95) ≤ 10 ∧
  claims_match (ctx_of 5 95) (channel_of 95) ∧
  (FullAmount (channel_of 95) < AuthorizedAmount (channel_of 95) + 10
   ∨ expired now0 (channel_of 95)) ∧
  let r := exec atomic_store (Validate validator0 (Some (call 10 5 95))) (store_of 95) in
  result r = None ∧ final r = store_of 95.
Proof.
  assert (Hprice : requiredPrice price10 (ctx_of 5 95) ≤ 10)
    by (unfold requiredPrice, price10; lia).
  assert (Hmatch : claims_match (ctx_of 5 95) (channel_of 95))
    by (split; reflexivity).
  assert (Hover : FullAmount (channel_of 95) < AuthorizedAmount (channel_of 95) + 10
                  ∨ expired now0 (channel_of 95))
    by (left; simpl; lia).
  split; [exact (scenario_on_channel 10 5 95 95) |].
  split; [exact Hprice |]. split; [exact Hmatch |]. split; [exact Hover |].
  exact (Validate_over_deposit_accepted_store_kept price10 now0 atomic_store
           validator0 (store_of 95) (call 10 5 95) (ctx_of 5 95) 10 (channel_of 95)
           (scenario_on_channel 10 5 95 95) Hprice Hmatch Hover).
Defined.

(** C6 fails as stated: channel [{fullAmount:100, authorizedAmount:95}],
    price 10, income 10 yields nil, not ResourceExhausted; so does the
    accepted scenario run after the expiration of the channel. *)
Lemma Validate_no_ResourceExhausted :
  let over := exec atomic_store (Validate validator0 (Some (call 10 5 95))) (store_of 95) in
  let late := exec atomic_store (Validate validator0 (Some (call 10 5 20))) (store_of 20) in
  (requiredPrice price10 (ctx_of 5 95) ≤ 10 ∧
   claims_match (ctx_of 5 95) (channel_of 95) ∧
   FullAmount (channel_of 95) < AuthorizedAmount (channel_of 95) + 10 ∧
   result over = None ∧
   ¬ rejected_unchanged ResourceExhausted (store_of 95) over) ∧
  (expired 2000 (channel_of 20) ∧
   ¬ rejected_unchanged ResourceExhausted (store_of 20) late).
Proof.
  cbn zeta. split; [split; [| split; [| split; [| split]]] | split].
  - unfold requiredPrice, price10. lia.
  - split; reflexivity.
  - simpl. lia.
  - reflexivity.
  - intros [Hkind _]. discriminate Hkind.
  - unfold expired. simpl. lia.
  - intros [Hkind _]. discriminate Hkind.
Qed.

Lemma Validate_keeps_invariant_witness :
  let calls := [Some (call 10 5 20); None; Some (call (-3) 5 20)] in
  let h := history atomic_store (Validate validator0 <$> calls) (store_of 20) in
  store_ok (store_of 20) ∧ Forall store_ok h ∧ Sorted never_decreases (store_of 20 :: h).
Proof.
  assert (Hok : store_ok (store_of 20)) by (apply scenario_store_ok; lia).
  split; [exact Hok |].
  exact (Validate_keeps_invariant atomic_store validator0
           [Some (call 10 5 20); None; Some (call (-3) 5 20)] (store_of 20) Hok).
Defined.



End escrow_properties.
